(** * dm-text-fuzz: a shallow embedding of [main.py]

    The program reads a text file, mutates it character by character
    ([fuzz_text]) and writes the result.  The embedding keeps the data of
    the source:

    - a Python [float] is an IEEE-754 binary64 number, here a primitive
      [float] with the kernel's [+], [<] and [<=];
    - a Python [str] is a sequence of code points, here [pystr := list char]
      with [char := N];
    - the module [random] is an interface ([RandomSource]) threaded through
      the code as explicit state;
    - exceptions are values of [exn], carried by [result]. *)

From Stdlib Require Import Floats.
From Stdlib Require Import Ascii String.
From stdpp Require Import base list strings gmap.

Set Warnings "-inexact-float".

(** ** Text *)

Definition char := N.
Abbreviation pystr := (list char).

(** The code points of a string literal of the source. *)
Definition lit (s : string) : pystr :=
  N_of_ascii <$> list_ascii_of_string s.

(** [x in s] for a one-character [x]. *)
Definition char_in (c : char) (s : pystr) : bool := bool_decide (c ∈ s).

(** ** Exceptions *)

Inductive exn :=
  | ValueError (msg : string)
  | FileNotFoundError (msg : string)
  | IsADirectoryError (msg : string)
  | OSError (msg : string)
  | IndexError (msg : string).

Inductive result (A : Type) :=
  | Ok (a : A)
  | Raise (e : exn).
Arguments Ok {A} a.
Arguments Raise {A} e.

(** ** The constants of the module [string] *)

Module PyString.

Definition ascii_lowercase : pystr := lit "abcdefghijklmnopqrstuvwxyz".
Definition ascii_uppercase : pystr := lit "ABCDEFGHIJKLMNOPQRSTUVWXYZ".
Definition ascii_letters : pystr := ascii_lowercase ++ ascii_uppercase.
Definition digits : pystr := lit "0123456789".

(** The 32 ASCII punctuation marks in code-point order; the double quote
    (code point 34) comes second. *)
Definition punctuation : pystr :=
  lit "!" ++ [34%N] ++ lit "#$%&'()*+,-./:;<=>?@[\]^_`{|}~".

End PyString.

(** ** The module [random]

    [random()] returns a float in the half-open interval [0.0, 1.0);
    [_randbelow(n)] returns an integer below [n] for a positive [n].  Both
    advance the generator, whose state is the type [G]. *)

Class RandomSource (G : Type) := {
  random : G → float * G;
  randbelow : nat → G → nat * G;
  random_unit g :
    (0 <=? (random g).1)%float = true ∧ ((random g).1 <? 1)%float = true;
  randbelow_lt n g : 0 < n → (randbelow n g).1 < n
}.

(** [random.choice(seq)]: [IndexError] on an empty sequence, otherwise
    [seq[_randbelow(len(seq))]]. *)
Definition choice `{RandomSource G} (seq : pystr) (g : G) : result char * G :=
  match seq with
  | [] => (Raise (IndexError "Cannot choose from an empty sequence"), g)
  | _ =>
      let '(i, g') := randbelow (length seq) g in
      match seq !! i with
      | Some c => (Ok c, g')
      | None => (Raise (IndexError "string index out of range"), g')
      end
  end.

(** ** [fuzz_text] *)

Section Fuzzer.
Context `{RandomSource G}.
Variables (sub_freq ins_freq del_freq : float) (preserve_punctuation : bool).

(** The [for] loop of [fuzz_text]: [chars] is what is left of [text],
    [fuzzed_text] the string built so far. *)
Fixpoint fuzz_loop (chars : pystr) (fuzzed_text : pystr) (g : G)
  : result pystr * G :=
  match chars with
  | [] => (Ok fuzzed_text, g)
  | char :: chars =>
      if preserve_punctuation && char_in char PyString.punctuation then
        fuzz_loop chars (fuzzed_text ++ [char]) g
      else
        let '(rand_val, g) := random g in
        if (rand_val <? sub_freq)%float then
          match choice (PyString.ascii_letters ++ PyString.digits) g with
          | (Ok c, g) => fuzz_loop chars (fuzzed_text ++ [c]) g
          | (Raise e, g) => (Raise e, g)
          end
        else if (rand_val <? sub_freq + ins_freq)%float then
          match choice (PyString.ascii_letters ++ PyString.digits) g with
          | (Ok c, g) => fuzz_loop chars (fuzzed_text ++ ([c] ++ [char])) g
          | (Raise e, g) => (Raise e, g)
          end
        else if (rand_val <? sub_freq + ins_freq + del_freq)%float then
          fuzz_loop chars fuzzed_text g
        else
          fuzz_loop chars (fuzzed_text ++ [char]) g
  end.

Definition fuzz_text (text : pystr) (g : G) : result pystr * G :=
  fuzz_loop text [] g.

End Fuzzer.

(** ** The branch a character takes

    [fuzz_char] is one iteration of the loop body seen from outside: which
    branch ran, what it drew and the generator it leaves. *)

Inductive branch :=
  | Preserved            (* lines 57-59: punctuation kept, no draw *)
  | Substituted (c : char)  (* line 63 *)
  | Inserted (c : char)     (* line 65 *)
  | Deleted              (* line 67 *)
  | PassedThrough.       (* line 69 *)

(** What the branch appends to [fuzzed_text]. *)
Definition emitted (char : char) (b : branch) : pystr :=
  match b with
  | Preserved => [char]
  | Substituted c => [c]
  | Inserted c => [c] ++ [char]
  | Deleted => []
  | PassedThrough => [char]
  end.

Section Branches.
Context `{RandomSource G}.
Variables (sub_freq ins_freq del_freq : float) (preserve_punctuation : bool).

Definition fuzz_char (char : char) (g : G) : result branch * G :=
  if preserve_punctuation && char_in char PyString.punctuation then
    (Ok Preserved, g)
  else
    let '(rand_val, g) := random g in
    if (rand_val <? sub_freq)%float then
      match choice (PyString.ascii_letters ++ PyString.digits) g with
      | (Ok c, g) => (Ok (Substituted c), g)
      | (Raise e, g) => (Raise e, g)
      end
    else if (rand_val <? sub_freq + ins_freq)%float then
      match choice (PyString.ascii_letters ++ PyString.digits) g with
      | (Ok c, g) => (Ok (Inserted c), g)
      | (Raise e, g) => (Raise e, g)
      end
    else if (rand_val <? sub_freq + ins_freq + del_freq)%float then
      (Ok Deleted, g)
    else
      (Ok PassedThrough, g).

(** The branches of a whole run, character by character. *)
Inductive run : pystr → G → list branch → G → Prop :=
  | run_nil g : run [] g [] g
  | run_cons char chars g b g1 bs g2 :
      fuzz_char char g = (Ok b, g1) →
      run chars g1 bs g2 →
      run (char :: chars) g (b :: bs) g2.

End Branches.

(** The decision rule of the specification (section 4.2, step 2), in its
    words: one draw [r] against three cumulative thresholds. *)
Inductive decision := Substitute | Insert | Delete | PassThrough.

Definition spec_decision (r subFreq insFreq delFreq : float) : decision :=
  if (r <? subFreq)%float then Substitute
  else if (r <? subFreq + insFreq)%float then Insert
  else if (r <? subFreq + insFreq + delFreq)%float then Delete
  else PassThrough.

(** ** Files and the command line *)

(** A [Path] is its string.  What a path names on disk: a directory, or a
    regular file with its read and write permissions and its decoded
    text (files are taken to hold valid UTF-8). *)
Inductive node :=
  | Directory
  | RegularFile (readable writable : bool) (content : pystr).

Definition is_file (p : string) (fs : gmap string node) : bool :=
  match fs !! p with
  | Some (RegularFile _ _ _) => true
  | _ => false
  end.

Definition is_dir (p : string) (fs : gmap string node) : bool :=
  match fs !! p with
  | Some Directory => true
  | _ => false
  end.

(** The namespace that [parse_args] returns. *)
Record Namespace := {
  input_file : string;
  output_file : string;
  substitution_freq : float;
  insertion_freq : float;
  deletion_freq : float;
  preserve_punctuation : bool
}.

(** [0 <= x <= 1], that is [0 <= x and x <= 1]. *)
Definition between_0_1 (x : float) : bool :=
  (0 <=? x)%float && (x <=? 1)%float.

(** The checks in the order of the source; [s > 1] is written [1 <? s]. *)
Definition validate_args (args : Namespace) (fs : gmap string node)
  : result unit :=
  if negb (between_0_1 (substitution_freq args)) then
    Raise (ValueError "Substitution frequency must be between 0 and 1.")
  else if negb (between_0_1 (insertion_freq args)) then
    Raise (ValueError "Insertion frequency must be between 0 and 1.")
  else if negb (between_0_1 (deletion_freq args)) then
    Raise (ValueError "Deletion frequency must be between 0 and 1.")
  else if (1 <? substitution_freq args + insertion_freq args
                + deletion_freq args)%float then
    Raise (ValueError
             "Total modification probability cannot be greater than 1.")
  else if negb (is_file (input_file args) fs) then
    Raise (FileNotFoundError ("Input file not found: " +:+ input_file args))
  else if is_dir (output_file args) fs then
    Raise (IsADirectoryError
             ("Output file cannot be a directory: " +:+ output_file args))
  else Ok ().

(** ** [main] and the world it runs in *)

Inductive level := INFO | ERROR.
Inductive mode := ModeR | ModeW.

(** The world: the disk, the generator, the records sent to [logging] and
    the calls made to [open], latest last. *)
Record World (G : Type) := {
  fs : gmap string node;
  rng : G;
  log : list (level * string);
  opens : list (string * mode)
}.
Arguments fs {G} _.
Arguments rng {G} _.
Arguments log {G} _.
Arguments opens {G} _.

Definition exn_message (e : exn) : string :=
  match e with
  | ValueError m | FileNotFoundError m | IsADirectoryError m
  | OSError m | IndexError m => m
  end.

Section Main.
Context `{RandomSource G}.

Definition logging (l : level) (msg : string) (w : World G) : World G :=
  {| fs := fs w; rng := rng w; log := log w ++ [(l, msg)];
     opens := opens w |}.

(** [open(p, "r")] followed by [read()]. *)
Definition read_file (p : string) (w : World G) : result pystr * World G :=
  let w' := {| fs := fs w; rng := rng w; log := log w;
               opens := opens w ++ [(p, ModeR)] |} in
  match fs w !! p with
  | None => (Raise (FileNotFoundError "No such file or directory"), w')
  | Some Directory => (Raise (IsADirectoryError "Is a directory"), w')
  | Some (RegularFile false _ _) => (Raise (OSError "Permission denied"), w')
  | Some (RegularFile true _ content) => (Ok content, w')
  end.

(** [open(p, "w")] followed by [write(data)]: the file is created or
    truncated (the parent directory is taken to exist). *)
Definition write_file (p : string) (data : pystr) (w : World G)
  : result unit * World G :=
  let opened := opens w ++ [(p, ModeW)] in
  match fs w !! p with
  | Some Directory =>
      (Raise (IsADirectoryError "Is a directory"),
       {| fs := fs w; rng := rng w; log := log w; opens := opened |})
  | Some (RegularFile _ false _) =>
      (Raise (OSError "Permission denied"),
       {| fs := fs w; rng := rng w; log := log w; opens := opened |})
  | Some (RegularFile r true _) =>
      (Ok (), {| fs := <[p := RegularFile r true data]> (fs w);
                 rng := rng w; log := log w; opens := opened |})
  | None =>
      (Ok (), {| fs := <[p := RegularFile true true data]> (fs w);
                 rng := rng w; log := log w; opens := opened |})
  end.

(** The two [except] clauses: both log and call [sys.exit(1)]. *)
Definition handle (e : exn) (w : World G) : nat * World G :=
  match e with
  | FileNotFoundError _ | ValueError _ | IsADirectoryError _ | OSError _ =>
      (1, logging ERROR ("Error: " +:+ exn_message e) w)
  | _ => (1, logging ERROR "An unexpected error occurred:" w)
  end.

(** [main], after [parse_args]: the exit status and the world left. *)
Definition main (args : Namespace) (w : World G) : nat * World G :=
  match validate_args args (fs w) with
  | Raise e => handle e w
  | Ok _ =>
      let w := logging INFO ("Fuzzing file: " +:+ input_file args) w in
      match read_file (input_file args) w with
      | (Raise e, w) => handle e w
      | (Ok text, w) =>
          match fuzz_text (substitution_freq args) (insertion_freq args)
                  (deletion_freq args) (preserve_punctuation args)
                  text (rng w) with
          | (Raise e, g) =>
              handle e {| fs := fs w; rng := g; log := log w;
                          opens := opens w |}
          | (Ok fuzzed_text, g) =>
              let w := {| fs := fs w; rng := g; log := log w;
                          opens := opens w |} in
              match write_file (output_file args) fuzzed_text w with
              | (Raise e, w) => handle e w
              | (Ok _, w) =>
                  (0, logging INFO
                        ("Fuzzed text saved to: " +:+ output_file args) w)
              end
          end
      end
  end.

End Main.

(** ** A scripted generator

    A generator that replays a script: the floats that [random()] will
    return, each carried with the evidence that it lies in [0.0, 1.0), and
    the integers from which [_randbelow] takes its results.  An exhausted
    script answers [0.0] and [0]. *)

Record unit_float := UnitFloat {
  uf_val : float;
  uf_ok : (0 <=? uf_val)%float = true ∧ (uf_val <? 1)%float = true
}.

Record script := Script { floats : list unit_float; ints : list nat }.

Definition script_random (s : script) : float * script :=
  match floats s with
  | [] => (0%float, s)
  | u :: us => (uf_val u, Script us (ints s))
  end.

Definition script_randbelow (n : nat) (s : script) : nat * script :=
  match ints s with
  | [] => (0, s)
  | k :: ks => (k `mod` n, Script (floats s) ks)
  end.

#[export, refine] Instance script_source : RandomSource script := {|
  random := script_random;
  randbelow := script_randbelow
|}.
Proof.
  - intros s. unfold script_random. destruct (floats s) as [|u us]; simpl.
    + split; reflexivity.
    + apply uf_ok.
  - intros n s Hn. unfold script_randbelow.
    destruct (ints s) as [|k ks]; simpl.
    + exact Hn.
    + apply Nat.mod_upper_bound. lia.
Defined.

Definition uf (x : float)
  (H : (0 <=? x)%float = true ∧ (x <? 1)%float = true) : unit_float :=
  UnitFloat x H.

Notation "'draw' x" := (uf x (conj eq_refl eq_refl))
  (at level 10, x at level 9, only parsing).

(** ** Names used by the properties *)

(** [string.ascii_letters + string.digits], the argument of both calls to
    [random.choice]. *)
Definition alnum : pystr := PyString.ascii_letters ++ PyString.digits.

(** An ASCII letter or digit, by code point. *)
Definition is_ascii_alnum (c : char) : Prop :=
  (48 ≤ c ≤ 57 ∨ 65 ≤ c ≤ 90 ∨ 97 ≤ c ≤ 122)%N.

Definition ascii_alnumb (c : char) : bool :=
  ((48 <=? c) && (c <=? 57) || (65 <=? c) && (c <=? 90)
   || (97 <=? c) && (c <=? 122))%N.

(** The guard of lines 57-59. *)
Definition exempt (preserve : bool) (char : char) : bool :=
  preserve && char_in char PyString.punctuation.

(** The branches that change the text. *)
Definition modified (b : branch) : Prop :=
  match b with
  | Substituted _ | Inserted _ | Deleted => True
  | Preserved | PassedThrough => False
  end.

(** The sentence of C5 at one input: every character of the text takes a
    branch that changes it. *)
Definition every_char_modified `{RandomSource G}
    (sub_freq ins_freq del_freq : float) (preserve_punctuation : bool)
    (text : pystr) (g : G) : Prop :=
  ∀ bs g', run sub_freq ins_freq del_freq preserve_punctuation text g bs g' →
           Forall modified bs.

(** The four messages of a configuration error. *)
Definition configuration_messages : list string :=
  [ "Substitution frequency must be between 0 and 1.";
    "Insertion frequency must be between 0 and 1.";
    "Deletion frequency must be between 0 and 1.";
    "Total modification probability cannot be greater than 1." ].

(** Counting the branches of a run that change the length. *)
Definition is_inserted (b : branch) : bool :=
  match b with Inserted _ => true | _ => false end.

Definition is_deleted (b : branch) : bool :=
  match b with Deleted => true | _ => false end.

(** [setup_argparse] gives the three frequency options the defaults 0.1,
    0.05 and 0.05 and makes [--preserve_punctuation] a [store_true] flag:
    this is the namespace of a command line that names the two files and
    no option. *)
Definition default_args (input output : string) : Namespace :=
  {| input_file := input;
     output_file := output;
     substitution_freq := 0.1;
     insertion_freq := 0.05;
     deletion_freq := 0.05;
     preserve_punctuation := false |}.

(** The four frequency checks of [validate_args] pass. *)
Definition frequencies_valid (args : Namespace) : Prop :=
  between_0_1 (substitution_freq args) = true ∧
  between_0_1 (insertion_freq args) = true ∧
  between_0_1 (deletion_freq args) = true ∧
  (1 <? substitution_freq args + insertion_freq args
        + deletion_freq args)%float = false.




(** * Properties *)

(** ** Facts on binary64 comparisons *)

Section FloatFacts.
Local Open Scope float_scope.

Lemma Prim2SF_zero : Prim2SF 0 = S754_zero false.
Proof. reflexivity. Qed.

(** [x == 0.0] holds of the two zeros only. *)
Lemma float_eqb_zero (x : float) :
  (x =? 0) = true → x = 0 ∨ x = -0.
Proof.
  rewrite FloatAxioms.eqb_spec, Prim2SF_zero. unfold SFeqb.
  intros Hx. rewrite <- (SF2Prim_Prim2SF x).
  destruct (Prim2SF x) as [[]|[]| |[] m e]; simpl in Hx; try discriminate.
  - right. reflexivity.
  - left. reflexivity.
Qed.

(** Nothing that is at least [0.0] is below a zero. *)
Lemma float_ltb_zero (r z : float) :
  (0 <=? r) = true → (z =? 0) = true → (r <? z) = false.
Proof.
  intros Hr Hz. apply float_eqb_zero in Hz.
  revert Hr. rewrite FloatAxioms.leb_spec, FloatAxioms.ltb_spec, Prim2SF_zero.
  unfold SFleb, SFltb.
  destruct Hz as [-> | ->];
    [ replace (Prim2SF 0) with (S754_zero false) by reflexivity
    | replace (Prim2SF (-0)) with (S754_zero true) by reflexivity ];
    destruct (Prim2SF r) as [[]|[]| |[] m e]; simpl; congruence.
Qed.

(** The sum of two zeros is a zero. *)
Lemma float_add_zero (x y : float) :
  (x =? 0) = true → (y =? 0) = true → (x + y =? 0) = true.
Proof.
  intros Hx Hy.
  destruct (float_eqb_zero x Hx) as [-> | ->];
    destruct (float_eqb_zero y Hy) as [-> | ->]; reflexivity.
Qed.

(** [x == 1.0] holds of [1.0] only. *)
Lemma float_eqb_one (x : float) : (x =? 1) = true → x = 1.
Proof.
  rewrite FloatAxioms.eqb_spec. intros Hx. apply Prim2SF_inj. revert Hx.
  replace (Prim2SF 1) with (S754_finite false 4503599627370496 (-52))
    by reflexivity.
  unfold SFeqb, SFcompare.
  destruct (Prim2SF x) as [[]|[]| |[] m e]; try discriminate.
  destruct (Z.compare_spec e (-52)) as [-> | |]; try discriminate.
  destruct (PosDef.Pos.compare_cont Eq m 4503599627370496) eqn:Hm;
    try discriminate.
  apply (Pos.compare_eq m) in Hm. intros _. rewrite Hm. reflexivity.
Qed.

End FloatFacts.

(** ** The alphabet of replacements *)

Lemma ascii_alnumb_spec (c : char) : ascii_alnumb c = true ↔ is_ascii_alnum c.
Proof.
  unfold ascii_alnumb, is_ascii_alnum.
  rewrite !orb_true_iff, !andb_true_iff, !N.leb_le. tauto.
Qed.

Lemma alnum_sound : Forall (λ c, ascii_alnumb c = true) alnum.
Proof. vm_compute. repeat constructor. Qed.

Lemma alnum_complete_below :
  forallb (λ k, implb (ascii_alnumb (N.of_nat k)) (char_in (N.of_nat k) alnum))
    (seq 0 123) = true.
Proof. vm_compute. reflexivity. Qed.

(** The alphabet holds the ASCII letters and digits and nothing else. *)
Lemma elem_of_alnum (c : char) : c ∈ alnum ↔ is_ascii_alnum c.
Proof.
  rewrite <- ascii_alnumb_spec. split.
  - intros Hc. exact (proj1 (Forall_forall _ _) alnum_sound c Hc).
  - intros Hc.
    assert (Hlt : (c < 123)%N).
    { apply ascii_alnumb_spec in Hc. unfold is_ascii_alnum in Hc. lia. }
    assert (Hin : In (N.to_nat c) (seq 0 123)) by (apply in_seq; lia).
    pose proof (proj1 (forallb_forall _ _) alnum_complete_below
                  (N.to_nat c) Hin) as Hk.
    cbv beta in Hk. rewrite N2Nat.id, Hc in Hk.
    unfold char_in in Hk. eapply bool_decide_eq_true_1, Hk.
Qed.

Lemma alnum_length : length alnum = 62.
Proof. reflexivity. Qed.

(** ** [random.choice] on a non-empty sequence *)

Section ChoiceFacts.
Context `{RandomSource G}.

Lemma choice_nonempty (seq : pystr) (g : G) :
  seq ≠ [] →
  ∃ c, seq !! (randbelow (length seq) g).1 = Some c ∧ c ∈ seq ∧
       choice seq g = (Ok c, (randbelow (length seq) g).2).
Proof.
  intros Hne.
  assert (Hlen : 0 < length seq) by (destruct seq; [done | simpl; lia]).
  pose proof (randbelow_lt (length seq) g Hlen) as Hlt.
  destruct (lookup_lt_is_Some_2 seq _ Hlt) as [c Hc].
  exists c. split; [exact Hc|]. split; [by eapply list_elem_of_lookup_2|].
  unfold choice. destruct seq as [|a seq']; [done|].
  destruct (randbelow (length (a :: seq')) g) as [i g'] eqn:Hr.
  simpl in Hc. rewrite Hc. reflexivity.
Qed.

(** On the alphabet [choice] never raises and returns a letter or a
    digit. *)
Lemma choice_alnum (g : G) :
  ∃ c, c ∈ alnum ∧ choice alnum g = (Ok c, (randbelow 62 g).2).
Proof.
  destruct (choice_nonempty alnum g) as (c & _ & Hin & Hc); [done|].
  exists c. split; [exact Hin|]. exact Hc.
Qed.

End ChoiceFacts.

(** ** The loop and its iterations *)

Section FuzzerFacts.
Context `{RandomSource G}.
Variables (sub_freq ins_freq del_freq : float) (preserve_punctuation : bool).

Local Abbreviation floop :=
  (fuzz_loop sub_freq ins_freq del_freq preserve_punctuation).
Local Abbreviation ftext :=
  (fuzz_text sub_freq ins_freq del_freq preserve_punctuation).
Local Abbreviation fchar :=
  (fuzz_char sub_freq ins_freq del_freq preserve_punctuation).
Local Abbreviation frun :=
  (run sub_freq ins_freq del_freq preserve_punctuation).

(** An iteration never raises. *)
Lemma fuzz_char_total (char : char) (g : G) :
  ∃ b g', fchar char g = (Ok b, g').
Proof.
  unfold fuzz_char.
  destruct (preserve_punctuation && char_in char PyString.punctuation);
    [by eauto|].
  destruct (random g) as [r g1].
  destruct (choice_alnum g1) as (c & _ & Hc). unfold alnum in Hc.
  rewrite Hc.
  destruct (r <? sub_freq)%float; [by eauto|].
  destruct (r <? sub_freq + ins_freq)%float; [by eauto|].
  destruct (r <? sub_freq + ins_freq + del_freq)%float; by eauto.
Qed.

(** One turn of the loop is [fuzz_char] followed by the append of what
    the branch emits. *)
Lemma fuzz_loop_cons (char : char) (chars acc : pystr) (g : G) :
 floop (char :: chars) acc g =
  match fchar char g with
  | (Ok b, g') => floop chars (acc ++ emitted char b) g'
  | (Raise e, g') => (Raise e, g')
  end.
Proof.
  cbn [fuzz_loop]. unfold fuzz_char.
  destruct (preserve_punctuation && char_in char PyString.punctuation);
    [reflexivity|].
  destruct (random g) as [r g1].
  destruct (r <? sub_freq)%float;
    [by destruct (choice _ g1) as [[c|e] g2]|].
  destruct (r <? sub_freq + ins_freq)%float;
    [by destruct (choice _ g1) as [[c|e] g2]|].
  destruct (r <? sub_freq + ins_freq + del_freq)%float; [|reflexivity].
  cbn [emitted]. by rewrite app_nil_r.
Qed.

Lemma fuzz_loop_run (chars : pystr) (g : G) (bs : list branch) (g' : G) :
  frun chars g bs g' →
  ∀ acc, floop chars acc g =
         (Ok (acc ++ concat (zip_with emitted chars bs)), g').
Proof.
  induction 1 as [g | char chars g b g1 bs g2 Hb _ IH]; intros acc.
  - simpl. by rewrite app_nil_r.
  - rewrite fuzz_loop_cons, Hb, IH. simpl. by rewrite <- app_assoc.
Qed.

Lemma run_total (chars : pystr) (g : G) : ∃ bs g', frun chars g bs g'.
Proof.
  revert g. induction chars as [|char chars IH]; intros g.
  - exists [], g. constructor.
  - destruct (fuzz_char_total char g) as (b & g1 & Hb).
    destruct (IH g1) as (bs & g2 & Hrun).
    exists (b :: bs), g2. econstructor; eauto.
Qed.

Lemma run_det (chars : pystr) (g : G) bs g' bs' g'' :
  frun chars g bs g' → frun chars g bs' g'' → bs = bs' ∧ g' = g''.
Proof.
  intros Hrun. revert bs' g''.
  induction Hrun as [g | char chars g b g1 bs g2 Hb _ IH];
    intros bs' g'' Hrun'.
  - by inversion Hrun'.
  - inversion Hrun' as [| ? ? ? b' g1' bs'' ? Hb' Hrest]; subst.
    rewrite Hb in Hb'. injection Hb' as <- <-.
    by destruct (IH _ _ Hrest) as [-> ->].
Qed.

Lemma run_length (chars : pystr) (g : G) bs g' :
  frun chars g bs g' → length bs = length chars.
Proof. induction 1; simpl; congruence. Qed.

Lemma run_app (pre post : pystr) (g g1 g2 : G) bs1 bs2 :
  frun pre g bs1 g1 → frun post g1 bs2 g2 →
  frun (pre ++ post) g (bs1 ++ bs2) g2.
Proof.
  induction 1 as [g | char chars g b g' bs g1 Hb _ IH]; intros Hpost.
  - exact Hpost.
  - simpl. econstructor; eauto.
Qed.

(** [fuzz_text] always returns, and what it returns is the
    concatenation of what the branches emitted. *)
Lemma fuzz_text_run (text : pystr) (g : G) bs g' :
  frun text g bs g' →
  ftext text g = (Ok (concat (zip_with emitted text bs)), g').
Proof.
  intros Hrun. unfold fuzz_text. by rewrite (fuzz_loop_run _ _ _ _ Hrun).
Qed.

Lemma fuzz_text_total (text : pystr) (g : G) :
  ∃ out g', ftext text g = (Ok out, g').
Proof.
  destruct (run_total text g) as (bs & g' & Hrun).
  rewrite (fuzz_text_run _ _ _ _ Hrun). eauto.
Qed.

(** The output around one character: the output of the text before it,
    what its branch emits, the output of the text after it. *)
Lemma fuzz_text_around (pre post : pystr) (char : char) (g g1 g2 g3 : G)
    (o1 o2 : pystr) (b : branch) :
  ftext pre g = (Ok o1, g1) →
  fchar char g1 = (Ok b, g2) →
  ftext post g2 = (Ok o2, g3) →
  ftext (pre ++ char :: post) g = (Ok (o1 ++ emitted char b ++ o2), g3).
Proof.
  intros Hpre Hb Hpost.
  destruct (run_total pre g) as (bs1 & g1' & Hr1).
  rewrite (fuzz_text_run _ _ _ _ Hr1) in Hpre. simplify_eq.
  destruct (run_total post g2) as (bs2 & g3' & Hr2).
  rewrite (fuzz_text_run _ _ _ _ Hr2) in Hpost. simplify_eq.
  assert (Hrun : frun (pre ++ char :: post) g (bs1 ++ b :: bs2) g3).
  { apply run_app with g1; [done|]. econstructor; eauto. }
  rewrite (fuzz_text_run _ _ _ _ Hrun). f_equal. f_equal.
  pose proof (run_length _ _ _ _ Hr1) as Hlen.
  rewrite zip_with_app by done. rewrite concat_app. reflexivity.
Qed.

End FuzzerFacts.

(** ** The fuzzer *)

Section FuzzerClaims.
Context `{RandomSource G}.
Variables (sub_freq ins_freq del_freq : float) (preserve_punctuation : bool).

Local Abbreviation floop :=
  (fuzz_loop sub_freq ins_freq del_freq preserve_punctuation).
Local Abbreviation ftext :=
  (fuzz_text sub_freq ins_freq del_freq preserve_punctuation).
Local Abbreviation fchar :=
  (fuzz_char sub_freq ins_freq del_freq preserve_punctuation).
Local Abbreviation frun :=
  (run sub_freq ins_freq del_freq preserve_punctuation).

(** The iteration of a character that the guard does not exempt: the
    branch is the decision of the specification on the one draw of
    [random()], and [random.choice] is called after it in the first two
    branches only. *)
Lemma fuzz_char_decision (char : char) (g : G) :
  exempt preserve_punctuation char = false →
  ∃ c, c ∈ alnum ∧
    choice alnum (random g).2 = (Ok c, (randbelow 62 (random g).2).2) ∧
    fchar char g =
      match spec_decision (random g).1 sub_freq ins_freq del_freq with
      | Substitute => (Ok (Substituted c), (randbelow 62 (random g).2).2)
      | Insert => (Ok (Inserted c), (randbelow 62 (random g).2).2)
      | Delete => (Ok Deleted, (random g).2)
      | PassThrough => (Ok PassedThrough, (random g).2)
      end.
Proof.
  unfold exempt, fuzz_char, spec_decision. intros ->.
  destruct (random g) as [r g1]. cbn [fst snd].
  destruct (choice_alnum g1) as (c & Hin & Hc).
  exists c. split; [exact Hin|]. split; [exact Hc|].
  unfold alnum in Hc. rewrite Hc.
  destruct (r <? sub_freq)%float; [reflexivity|].
  destruct (r <? sub_freq + ins_freq)%float; [reflexivity|].
  destruct (r <? sub_freq + ins_freq + del_freq)%float; reflexivity.
Qed.

(** C1: a character that is not exempt costs one draw [r] of [random()],
    and the turn of the loop is decided by [r] against the cumulative
    thresholds in the fixed order substitute, insert, delete, pass
    through: the loop goes on with the text extended as the decision says
    and with the generator that the single draw (and, when a replacement
    is needed, the one call to [random.choice]) has left. *)
Theorem fuzz_text_one_draw_cumulative
    (char : char) (chars acc : pystr) (g : G) :
  exempt preserve_punctuation char = false →
  ∃ c, c ∈ alnum ∧
    choice alnum (random g).2 = (Ok c, (randbelow 62 (random g).2).2) ∧
    fuzz_loop sub_freq ins_freq del_freq preserve_punctuation
      (char :: chars) acc g =
      match spec_decision (random g).1 sub_freq ins_freq del_freq with
      | Substitute =>
          fuzz_loop sub_freq ins_freq del_freq preserve_punctuation
            chars (acc ++ [c]) (randbelow 62 (random g).2).2
      | Insert =>
          fuzz_loop sub_freq ins_freq del_freq preserve_punctuation
            chars (acc ++ [c; char]) (randbelow 62 (random g).2).2
      | Delete =>
          fuzz_loop sub_freq ins_freq del_freq preserve_punctuation
            chars acc (random g).2
      | PassThrough =>
          fuzz_loop sub_freq ins_freq del_freq preserve_punctuation
            chars (acc ++ [char]) (random g).2
      end.
Proof.
  intros Hex. destruct (fuzz_char_decision char g Hex) as (c & Hin & Hc & Hb).
  exists c. split; [exact Hin|]. split; [exact Hc|].
  rewrite fuzz_loop_cons, Hb.
  destruct (spec_decision _ _ _ _); cbn [emitted];
    rewrite ?app_nil_r; reflexivity.
Qed.

(** C8: the empty text gives the empty text, and the generator is not
    touched. *)
Theorem fuzz_text_empty (g : G) :
  fuzz_text sub_freq ins_freq del_freq preserve_punctuation [] g = (Ok [], g).
Proof. reflexivity. Qed.

End FuzzerClaims.

Section ZeroFrequencies.
Context `{RandomSource G}.
Variables (sub_freq ins_freq del_freq : float) (preserve_punctuation : bool).
Hypothesis sub_zero : (sub_freq =? 0)%float = true.
Hypothesis ins_zero : (ins_freq =? 0)%float = true.
Hypothesis del_zero : (del_freq =? 0)%float = true.

Lemma zero_freqs_pass (char : char) (g : G) :
  ∃ b g', fuzz_char sub_freq ins_freq del_freq preserve_punctuation char g
          = (Ok b, g') ∧ emitted char b = [char].
Proof.
  unfold fuzz_char.
  destruct (preserve_punctuation && char_in char PyString.punctuation);
    [by eauto|].
  destruct (random_unit g) as [Hge _].
  destruct (random g) as [r g1]. cbn [fst] in Hge.
  rewrite (float_ltb_zero r sub_freq Hge sub_zero).
  rewrite (float_ltb_zero r _ Hge (float_add_zero _ _ sub_zero ins_zero)).
  rewrite (float_ltb_zero r _ Hge
             (float_add_zero _ _ (float_add_zero _ _ sub_zero ins_zero)
                del_zero)).
  by eauto.
Qed.

Lemma zero_freqs_loop (chars acc : pystr) (g : G) :
  ∃ g', fuzz_loop sub_freq ins_freq del_freq preserve_punctuation chars acc g
        = (Ok (acc ++ chars), g').
Proof.
  revert acc g. induction chars as [|char chars IH]; intros acc g.
  - exists g. simpl. by rewrite app_nil_r.
  - rewrite fuzz_loop_cons.
    destruct (zero_freqs_pass char g) as (b & g1 & -> & ->).
    destruct (IH (acc ++ [char]) g1) as (g' & ->).
    exists g'. by rewrite <- app_assoc.
Qed.

End ZeroFrequencies.

(** C2: when the three frequencies are zero (as [==] has it: [0.0] or
    [-0.0]) the output is the input, whatever the flag and whatever the
    generator returns. *)
Theorem fuzz_text_zero_freqs_identity `{RandomSource G}
    (sub_freq ins_freq del_freq : float) (preserve_punctuation : bool)
    (text : pystr) (g : G) :
  (sub_freq =? 0)%float = true →
  (ins_freq =? 0)%float = true →
  (del_freq =? 0)%float = true →
  ∃ g', fuzz_text sub_freq ins_freq del_freq preserve_punctuation text g
        = (Ok text, g').
Proof.
  intros Hs Hi Hd. unfold fuzz_text.
  exact (zero_freqs_loop _ _ _ preserve_punctuation Hs Hi Hd text [] g).
Qed.

Section PerCharacter.
Context `{RandomSource G}.
Variables (sub_freq ins_freq del_freq : float) (preserve_punctuation : bool).

Local Abbreviation ftext :=
  (fuzz_text sub_freq ins_freq del_freq preserve_punctuation).
Local Abbreviation fchar :=
  (fuzz_char sub_freq ins_freq del_freq preserve_punctuation).
Local Abbreviation frun :=
  (run sub_freq ins_freq del_freq preserve_punctuation).

Lemma fuzz_char_exempt (char : char) (g : G) :
  exempt preserve_punctuation char = true → fchar char g = (Ok Preserved, g).
Proof. unfold exempt, fuzz_char. by intros ->. Qed.

(** Whatever branch runs, a character it brings in is from the alphabet,
    and [Preserved] is the branch of the exempt characters only. *)
Lemma fuzz_char_branch (char : char) (g g' : G) (b : branch) :
  fchar char g = (Ok b, g') →
  match b with
  | Preserved => exempt preserve_punctuation char = true
  | Substituted c | Inserted c =>
      c ∈ alnum ∧ exempt preserve_punctuation char = false
  | Deleted | PassedThrough => exempt preserve_punctuation char = false
  end.
Proof.
  destruct (exempt preserve_punctuation char) eqn:Hex.
  - rewrite (fuzz_char_exempt _ _ Hex). by intros [= <- <-].
  - destruct (fuzz_char_decision sub_freq ins_freq del_freq
                preserve_punctuation char g Hex) as (c & Hin & _ & ->).
    destruct (spec_decision _ _ _ _); by intros [= <- <-].
Qed.

(** C6: when the draw of a character falls below [sub_freq], what the
    character leaves in the output, between the output of the text before
    it and the output of the text after it, is one character, taken by
    [random.choice] from the alphabet: an ASCII letter or digit. *)
Theorem substitution_emits_one_alphanumeric
    (pre post : pystr) (char : char) (g g1 : G) (o1 : pystr) :
  fuzz_text sub_freq ins_freq del_freq preserve_punctuation pre g
    = (Ok o1, g1) →
  exempt preserve_punctuation char = false →
  ((random g1).1 <? sub_freq)%float = true →
  ∃ c o2 g3,
    is_ascii_alnum c ∧ c ∈ alnum ∧
    choice alnum (random g1).2 = (Ok c, (randbelow 62 (random g1).2).2) ∧
    fuzz_char sub_freq ins_freq del_freq preserve_punctuation char g1
      = (Ok (Substituted c), (randbelow 62 (random g1).2).2) ∧
    fuzz_text sub_freq ins_freq del_freq preserve_punctuation post
      (randbelow 62 (random g1).2).2 = (Ok o2, g3) ∧
    fuzz_text sub_freq ins_freq del_freq preserve_punctuation
      (pre ++ char :: post) g = (Ok (o1 ++ [c] ++ o2), g3).
Proof.
  intros Hpre Hex Hr.
  destruct (fuzz_char_decision sub_freq ins_freq del_freq
              preserve_punctuation char g1 Hex) as (c & Hin & Hc & Hb).
  unfold spec_decision in Hb. rewrite Hr in Hb.
  destruct (fuzz_text_total sub_freq ins_freq del_freq preserve_punctuation
              post (randbelow 62 (random g1).2).2) as (o2 & g3 & Hpost).
  exists c, o2, g3. split; [by apply elem_of_alnum|].
  repeat split; try done.
  exact (fuzz_text_around _ _ _ _ _ _ _ _ _ _ _ _ _ _ Hpre Hb Hpost).
Qed.

(** C7: when the draw of a character falls in the insertion band, the
    character leaves two characters in the output: one ASCII letter or
    digit taken by [random.choice], then the character itself; that is one
    more than a character passed through. *)
Theorem insertion_emits_alphanumeric_then_original
    (pre post : pystr) (char : char) (g g1 : G) (o1 : pystr) :
  fuzz_text sub_freq ins_freq del_freq preserve_punctuation pre g
    = (Ok o1, g1) →
  exempt preserve_punctuation char = false →
  ((random g1).1 <? sub_freq)%float = false →
  ((random g1).1 <? sub_freq + ins_freq)%float = true →
  ∃ c o2 g3,
    is_ascii_alnum c ∧ c ∈ alnum ∧
    choice alnum (random g1).2 = (Ok c, (randbelow 62 (random g1).2).2) ∧
    fuzz_char sub_freq ins_freq del_freq preserve_punctuation char g1
      = (Ok (Inserted c), (randbelow 62 (random g1).2).2) ∧
    fuzz_text sub_freq ins_freq del_freq preserve_punctuation post
      (randbelow 62 (random g1).2).2 = (Ok o2, g3) ∧
    fuzz_text sub_freq ins_freq del_freq preserve_punctuation
      (pre ++ char :: post) g = (Ok (o1 ++ [c; char] ++ o2), g3) ∧
    length (emitted char (Inserted c))
      = S (length (emitted char PassedThrough)).
Proof.
  intros Hpre Hex Hs Hi.
  destruct (fuzz_char_decision sub_freq ins_freq del_freq
              preserve_punctuation char g1 Hex) as (c & Hin & Hc & Hb).
  unfold spec_decision in Hb. rewrite Hs, Hi in Hb.
  destruct (fuzz_text_total sub_freq ins_freq del_freq preserve_punctuation
              post (randbelow 62 (random g1).2).2) as (o2 & g3 & Hpost).
  exists c, o2, g3. split; [by apply elem_of_alnum|].
  repeat split; try done.
  exact (fuzz_text_around _ _ _ _ _ _ _ _ _ _ _ _ _ _ Hpre Hb Hpost).
Qed.

End PerCharacter.

(** C3: with [preserve_punctuation] on, a punctuation mark of the input
    takes the guarded branch: the generator is not consulted (the text
    after the mark starts from the generator that the text before it
    left), and the mark stands once, unchanged, between the output of the
    text before it and the output of the text after it; nothing is put in
    front of it and it is not dropped. *)
Theorem preserved_punctuation_is_untouched `{RandomSource G}
    (sub_freq ins_freq del_freq : float)
    (pre post : pystr) (char : char) (g : G) :
  char ∈ PyString.punctuation →
  ∃ o1 g1 o2 g2,
    fuzz_text sub_freq ins_freq del_freq true pre g = (Ok o1, g1) ∧
    fuzz_char sub_freq ins_freq del_freq true char g1 = (Ok Preserved, g1) ∧
    fuzz_text sub_freq ins_freq del_freq true post g1 = (Ok o2, g2) ∧
    fuzz_text sub_freq ins_freq del_freq true (pre ++ char :: post) g
      = (Ok (o1 ++ [char] ++ o2), g2).
Proof.
  intros Hp.
  destruct (fuzz_text_total sub_freq ins_freq del_freq true pre g)
    as (o1 & g1 & Hpre).
  destruct (fuzz_text_total sub_freq ins_freq del_freq true post g1)
    as (o2 & g2 & Hpost).
  assert (Hb : fuzz_char sub_freq ins_freq del_freq true char g1
               = (Ok Preserved, g1)).
  { apply fuzz_char_exempt. unfold exempt, char_in.
    by rewrite bool_decide_eq_true_2. }
  exists o1, g1, o2, g2. repeat split; try done.
  exact (fuzz_text_around _ _ _ _ _ _ _ _ _ _ _ _ _ _ Hpre Hb Hpost).
Qed.

Section SumOne.
Context `{RandomSource G}.
Variables (sub_freq ins_freq del_freq : float) (preserve_punctuation : bool).
Hypothesis sum_one : (sub_freq + ins_freq + del_freq =? 1)%float = true.

Lemma sum_one_decision (g : G) :
  spec_decision (random g).1 sub_freq ins_freq del_freq ≠ PassThrough.
Proof.
  unfold spec_decision. rewrite (float_eqb_one _ sum_one).
  destruct (random_unit g) as [_ ->].
  by repeat case_match.
Qed.

Lemma sum_one_branch (char : char) (g g' : G) (b : branch) :
  fuzz_char sub_freq ins_freq del_freq preserve_punctuation char g
    = (Ok b, g') →
  b ≠ PassedThrough ∧
  if exempt preserve_punctuation char then b = Preserved else modified b.
Proof.
  destruct (exempt preserve_punctuation char) eqn:Hex.
  - rewrite (fuzz_char_exempt _ _ _ _ _ _ Hex). by intros [= <- <-].
  - destruct (fuzz_char_decision sub_freq ins_freq del_freq
                preserve_punctuation char g Hex) as (c & _ & _ & ->).
    pose proof (sum_one_decision g) as Hd.
    destruct (spec_decision _ _ _ _); by intros [= <- <-].
Qed.

End SumOne.

(** C5, amended: when the three frequencies sum (as the program adds
    them) to exactly [1.0], no character takes the last branch, the one
    that passes it through; a character that the punctuation guard does
    not exempt is substituted, gets a character inserted before it, or is
    deleted, and an exempt one is kept as it is. *)
Theorem sum_one_no_pass_through `{RandomSource G}
    (sub_freq ins_freq del_freq : float) (preserve_punctuation : bool)
    (text : pystr) (g : G) :
  (sub_freq + ins_freq + del_freq =? 1)%float = true →
  ∃ bs g',
    run sub_freq ins_freq del_freq preserve_punctuation text g bs g' ∧
    fuzz_text sub_freq ins_freq del_freq preserve_punctuation text g
      = (Ok (concat (zip_with emitted text bs)), g') ∧
    Forall (λ b, b ≠ PassedThrough) bs ∧
    Forall2 (λ char b, if exempt preserve_punctuation char
                       then b = Preserved else modified b) text bs.
Proof.
  intros Hsum.
  destruct (run_total sub_freq ins_freq del_freq preserve_punctuation text g)
    as (bs & g' & Hrun).
  exists bs, g'. split; [exact Hrun|]. split; [by apply fuzz_text_run|].
  induction Hrun as [g | char chars g b g1 bs g2 Hb _ [IH1 IH2]].
  - split; constructor.
  - destruct (sum_one_branch _ _ _ _ Hsum _ _ _ _ Hb) as [Hne Hmod].
    split; constructor; done.
Qed.

Section WholeText.
Context `{RandomSource G}.
Variables (sub_freq ins_freq del_freq : float) (preserve_punctuation : bool).

(** C9: the output is what the branches emit, in order; a character
    leaves nothing when deleted, two characters when one is inserted
    before it and one character otherwise, so the output is at most twice
    as long as the input. *)
Theorem fuzz_text_length_at_most_double (text : pystr) (g : G) :
  ∃ out g' bs,
    fuzz_text sub_freq ins_freq del_freq preserve_punctuation text g
      = (Ok out, g') ∧
    run sub_freq ins_freq del_freq preserve_punctuation text g bs g' ∧
    out = concat (zip_with emitted text bs) ∧
    Forall2 (λ char b,
               length (emitted char b)
               = match b with
                 | Deleted => 0
                 | Inserted _ => 2
                 | Preserved | Substituted _ | PassedThrough => 1
                 end) text bs ∧
    length out ≤ 2 * length text.
Proof.
  destruct (run_total sub_freq ins_freq del_freq preserve_punctuation text g)
    as (bs & g' & Hrun).
  exists (concat (zip_with emitted text bs)), g', bs.
  split; [by apply fuzz_text_run|]. split; [exact Hrun|]. split; [done|].
  induction Hrun as [g | char chars g b g1 bs g2 _ _ [IH1 IH2]].
  - split; [constructor | simpl; lia].
  - split.
    + constructor; [by destruct b | exact IH1].
    + cbn [zip_with concat]. rewrite length_app.
      assert (length (emitted char b) ≤ 2) by (destruct b; simpl; lia).
      simpl in *. lia.
Qed.

(** C10: a character of the output is a character of the input or an
    ASCII letter or digit. *)
Theorem fuzz_text_chars_from_input_or_alnum (text : pystr) (g : G) :
  ∃ out g',
    fuzz_text sub_freq ins_freq del_freq preserve_punctuation text g
      = (Ok out, g') ∧
    ∀ c, c ∈ out → c ∈ text ∨ is_ascii_alnum c.
Proof.
  destruct (run_total sub_freq ins_freq del_freq preserve_punctuation text g)
    as (bs & g' & Hrun).
  exists (concat (zip_with emitted text bs)), g'.
  split; [by apply fuzz_text_run|].
  induction Hrun as [g | char chars g b g1 bs g2 Hb _ IH]; intros c.
  - simpl. by intros ?%elem_of_nil.
  - cbn [zip_with concat]. rewrite elem_of_app, elem_of_cons.
    intros [Hc | Hc].
    + apply fuzz_char_branch in Hb.
      destruct b as [|c'|c'| |]; cbn [emitted] in Hc.
      * apply list_elem_of_singleton in Hc as ->. left. by left.
      * apply list_elem_of_singleton in Hc as ->.
        right. by apply elem_of_alnum, Hb.
      * apply elem_of_app in Hc as [Hc | Hc];
          apply list_elem_of_singleton in Hc as ->.
        -- right. by apply elem_of_alnum, Hb.
        -- left. by left.
      * by apply elem_of_nil in Hc.
      * apply list_elem_of_singleton in Hc as ->. left. by left.
    + destruct (IH c Hc); auto.
Qed.

End WholeText.

(** ** Validation *)

Local Ltac in_messages :=
  unfold configuration_messages;
  repeat first [apply list_elem_of_here | apply list_elem_of_further].

(** [validate_args] raises only the three exceptions that the first
    [except] clause of [main] names. *)
Lemma validate_args_raises (args : Namespace) (fs : gmap string node) (e : exn) :
  validate_args args fs = Raise e →
  (∃ msg, e = ValueError msg ∧ msg ∈ configuration_messages) ∨
  e = FileNotFoundError ("Input file not found: " +:+ input_file args) ∨
  e = IsADirectoryError
        ("Output file cannot be a directory: " +:+ output_file args).
Proof.
  unfold validate_args, configuration_messages.
  repeat case_match; intros [= <-]; auto;
    left; eexists; (split; [reflexivity | in_messages]).
Qed.

(** The sum that is tested is the binary64 sum, added left to right and
    rounded: 0.5 + 0.3 + 0.3 is above 1, and an excess below the rounding
    error of the sum is not seen. *)
Remark validate_args_sum_is_rounded :
  (1 <? 0.5 + 0.3 + 0.3)%float = true ∧
  (1 <? 1 + 0x1p-60 + 0)%float = false ∧
  between_0_1 nan = false.
Proof. repeat split. Qed.

(** C4: [validate_args] raises a [ValueError], with a message that names
    the constraint, exactly when a frequency fails [0 <= x <= 1] or the
    sum of the three, as the program adds them, is above [1]; the
    frequencies (1.2, 0, 0) and (0.5, 0.3, 0.3) are refused; and when
    [validate_args] raises, [main] exits with status 1 having logged the
    error and nothing else: no call to [open], the disk as it was. *)
Theorem validate_args_configuration_error `{RandomSource G}
    (args : Namespace) (w : World G) :
  ((∃ msg, validate_args args (fs w) = Raise (ValueError msg) ∧
           msg ∈ configuration_messages) ↔
   (between_0_1 (substitution_freq args) = false ∨
    between_0_1 (insertion_freq args) = false ∨
    between_0_1 (deletion_freq args) = false ∨
    (1 <? substitution_freq args + insertion_freq args
          + deletion_freq args)%float = true)) ∧
  (substitution_freq args = 1.2%float → insertion_freq args = 0%float →
   deletion_freq args = 0%float →
   validate_args args (fs w)
   = Raise (ValueError "Substitution frequency must be between 0 and 1.")) ∧
  (substitution_freq args = 0.5%float → insertion_freq args = 0.3%float →
   deletion_freq args = 0.3%float →
   validate_args args (fs w)
   = Raise (ValueError
              "Total modification probability cannot be greater than 1.")) ∧
  (∀ e, validate_args args (fs w) = Raise e →
        main args w = (1, logging ERROR ("Error: " +:+ exn_message e) w) ∧
        fs (main args w).2 = fs w ∧
        opens (main args w).2 = opens w ∧
        rng (main args w).2 = rng w).
Proof.
  split; [|split; [|split]].
  - unfold validate_args, configuration_messages. split.
    + intros (msg & Hv & _). revert Hv.
      destruct (between_0_1 (substitution_freq args)); simpl; [|by auto].
      destruct (between_0_1 (insertion_freq args)); simpl; [|by auto].
      destruct (between_0_1 (deletion_freq args)); simpl; [|by auto].
      destruct (1 <? _)%float; [by auto 6|].
      by repeat case_match.
    + intros Hc.
      destruct (between_0_1 (substitution_freq args)); simpl;
        [|eexists; split; [done | in_messages]].
      destruct (between_0_1 (insertion_freq args)); simpl;
        [|eexists; split; [done | in_messages]].
      destruct (between_0_1 (deletion_freq args)); simpl;
        [|eexists; split; [done | in_messages]].
      destruct Hc as [|[|[| ->]]]; try discriminate.
      eexists; split; [done | in_messages].
  - intros Hs Hi Hd. unfold validate_args. by rewrite Hs.
  - intros Hs Hi Hd. unfold validate_args. by rewrite Hs, Hi, Hd.
  - intros e He. unfold main. rewrite He.
    destruct (validate_args_raises _ _ _ He) as [(msg & -> & _) | [-> | ->]];
      done.
Qed.

(** ** The properties on scripted draws

    Each property with a hypothesis is applied to a run whose draws are
    written out. *)

Section Scripted.

(** C1 at frequencies (0.5, 0.3, 0.1) and the draw 0.6: the draw is above
    [sub_freq] and below [sub_freq + ins_freq], so a character (index 10 of
    the alphabet) is inserted before the [a], although 0.6 is not below
    [ins_freq] itself. *)
Lemma fuzz_text_one_draw_cumulative_witness :
  fuzz_text 0.5 0.3 0.1 true (lit "a") (Script [draw 0.6] [10])
  = (Ok (lit "ka"), Script [] []).
Proof.
  destruct (fuzz_text_one_draw_cumulative 0.5 0.3 0.1 true
              97%N [] [] (Script [draw 0.6] [10]) eq_refl)
    as (c & _ & Hc & Hloop).
  vm_compute in Hc. injection Hc as <-. exact Hloop.
Defined.

(** C2 at frequencies (0.0, -0.0, 0.0). *)
Lemma fuzz_text_zero_freqs_identity_witness :
  ∃ g', fuzz_text 0 (-0) 0 true (lit "a.b,c")
          (Script [draw 0.25; draw 0.75] [3])
        = (Ok (lit "a.b,c"), g').
Proof.
  exact (fuzz_text_zero_freqs_identity 0 (-0) 0 true (lit "a.b,c")
           (Script [draw 0.25; draw 0.75] [3]) eq_refl eq_refl eq_refl).
Defined.

(** C3 at the full stop of [a.b], with draws that substitute the [a] and
    delete the [b]. *)
Lemma preserved_punctuation_is_untouched_witness :
  ∃ o1 g1 o2 g2,
    fuzz_text 0.5 0.3 0.1 true (lit "a") (Script [draw 0.25; draw 0.85] [1])
      = (Ok o1, g1) ∧
    fuzz_char 0.5 0.3 0.1 true 46%N g1 = (Ok Preserved, g1) ∧
    fuzz_text 0.5 0.3 0.1 true (lit "b") g1 = (Ok o2, g2) ∧
    fuzz_text 0.5 0.3 0.1 true (lit "a" ++ 46%N :: lit "b")
      (Script [draw 0.25; draw 0.85] [1])
      = (Ok (o1 ++ [46%N] ++ o2), g2).
Proof.
  exact (preserved_punctuation_is_untouched 0.5 0.3 0.1 (lit "a") (lit "b")
           46%N (Script [draw 0.25; draw 0.85] [1])
           (bool_decide_eq_true_1 (46%N ∈ PyString.punctuation) eq_refl)).
Defined.

(** C5, the sentence as it stands: at frequencies (1.0, 0.0, 0.0), which
    sum to 1, and with punctuation preserved, the full stop of [a.] is
    kept although it is a character of the input. *)
Lemma sum_one_preserved_punctuation_not_modified :
  (1 + 0 + 0 =? 1)%float = true ∧
  fuzz_text 1 0 0 true (lit "a.") (Script [draw 0.5] [1])
    = (Ok (lit "b."), Script [] []) ∧
  run 1 0 0 true (lit "a.") (Script [draw 0.5] [1])
    [Substituted 98%N; Preserved] (Script [] []) ∧
  ¬ every_char_modified 1 0 0 true (lit "a.") (Script [draw 0.5] [1]).
Proof.
  assert (Hrun : run 1 0 0 true (lit "a.") (Script [draw 0.5] [1])
                   [Substituted 98%N; Preserved] (Script [] [])).
  { apply run_cons with (g1 := Script [] []); [reflexivity|].
    apply run_cons with (g1 := Script [] []); [reflexivity|].
    apply run_nil. }
  split; [reflexivity|]. split; [reflexivity|]. split; [exact Hrun|].
  intros Hall. specialize (Hall _ _ Hrun).
  apply Forall_cons in Hall as [_ Hall].
  apply Forall_cons in Hall as [Hall _]. exact Hall.
Defined.

(** C5 as amended, at frequencies (0.5, 0.25, 0.25). *)
Lemma sum_one_no_pass_through_witness :
  ∃ bs g',
    run 0.5 0.25 0.25 true (lit "a.b") (Script [draw 0.6; draw 0.99] [7])
      bs g' ∧
    fuzz_text 0.5 0.25 0.25 true (lit "a.b")
      (Script [draw 0.6; draw 0.99] [7])
      = (Ok (concat (zip_with emitted (lit "a.b") bs)), g') ∧
    Forall (λ b, b ≠ PassedThrough) bs ∧
    Forall2 (λ char b, if exempt true char then b = Preserved else modified b)
      (lit "a.b") bs.
Proof.
  exact (sum_one_no_pass_through 0.5 0.25 0.25 true (lit "a.b")
           (Script [draw 0.6; draw 0.99] [7]) eq_refl).
Defined.

(** C6 at the [a] of [xay]: the [x] and the [y] pass through (draws 0.95),
    the draw 0.2 of the [a] is below [sub_freq] and index 10 gives [k]. *)
Lemma substitution_emits_one_alphanumeric_witness :
  fuzz_text 0.5 0.3 0.1 true (lit "xay")
    (Script [draw 0.95; draw 0.2; draw 0.95] [10])
  = (Ok (lit "xky"), Script [] []).
Proof.
  destruct (@substitution_emits_one_alphanumeric script script_source
              0.5 0.3 0.1 true (lit "x") (lit "y") 97%N
              (Script [draw 0.95; draw 0.2; draw 0.95] [10])
              (Script [draw 0.2; draw 0.95] [10]) (lit "x")
              eq_refl eq_refl eq_refl)
    as (c & o2 & g3 & _ & _ & Hc & _ & Hpost & Hall).
  vm_compute in Hc. injection Hc as <-.
  vm_compute in Hpost. injection Hpost as <- <-. exact Hall.
Defined.

(** C7 at the [a] of [xay]: the draw 0.6 of the [a] is in the insertion
    band and index 10 gives [k], put before the [a]. *)
Lemma insertion_emits_alphanumeric_then_original_witness :
  fuzz_text 0.5 0.3 0.1 true (lit "xay")
    (Script [draw 0.95; draw 0.6; draw 0.95] [10])
  = (Ok (lit "xkay"), Script [] []).
Proof.
  destruct (@insertion_emits_alphanumeric_then_original script script_source
              0.5 0.3 0.1 true (lit "x") (lit "y") 97%N
              (Script [draw 0.95; draw 0.6; draw 0.95] [10])
              (Script [draw 0.6; draw 0.95] [10]) (lit "x")
              eq_refl eq_refl eq_refl eq_refl)
    as (c & o2 & g3 & _ & _ & Hc & _ & Hpost & Hall & _).
  vm_compute in Hc. injection Hc as <-.
  vm_compute in Hpost. injection Hpost as <- <-. exact Hall.
Defined.

End Scripted.

(** * Further properties of the fuzzer *)

Section FuzzerComposition.
Context `{RandomSource G}.
Variables (sub_freq ins_freq del_freq : float) (preserve_punctuation : bool).

(** X1: [fuzz_text] never raises: the only call that can raise,
    [random.choice], is made on the 62 letters and digits and gets an index
    below 62.  This holds for any frequencies, validated or not (NaN,
    negative or above 1). *)
Theorem fuzz_text_never_raises (text : pystr) (g : G) :
  (∃ out g',
     fuzz_text sub_freq ins_freq del_freq preserve_punctuation text g
     = (Ok out, g')) ∧
  ∀ e g', fuzz_text sub_freq ins_freq del_freq preserve_punctuation text g
          ≠ (Raise e, g').
Proof.
  destruct (fuzz_text_total sub_freq ins_freq del_freq preserve_punctuation
              text g) as (out & g' & Hout).
  split; [by eauto|]. intros e g''. by rewrite Hout.
Qed.

(** X2: fuzzing a concatenation is fuzzing its first part and then its
    second part with the generator that the first part left: the loop
    keeps no memory but the generator. *)
Theorem fuzz_text_app (pre post : pystr) (g g1 g2 : G) (o1 o2 : pystr) :
  fuzz_text sub_freq ins_freq del_freq preserve_punctuation pre g
    = (Ok o1, g1) →
  fuzz_text sub_freq ins_freq del_freq preserve_punctuation post g1
    = (Ok o2, g2) →
  fuzz_text sub_freq ins_freq del_freq preserve_punctuation (pre ++ post) g
    = (Ok (o1 ++ o2), g2).
Proof.
  intros Hpre Hpost.
  destruct (run_total sub_freq ins_freq del_freq preserve_punctuation pre g)
    as (bs1 & g1' & Hr1).
  rewrite (fuzz_text_run _ _ _ _ _ _ _ _ Hr1) in Hpre. simplify_eq.
  destruct (run_total sub_freq ins_freq del_freq preserve_punctuation post g1)
    as (bs2 & g2' & Hr2).
  rewrite (fuzz_text_run _ _ _ _ _ _ _ _ Hr2) in Hpost. simplify_eq.
  rewrite (fuzz_text_run _ _ _ _ _ _ _ _ (run_app _ _ _ _ _ _ _ _ _ _ _ Hr1 Hr2)).
  pose proof (run_length _ _ _ _ _ _ _ _ Hr1) as Hlen.
  rewrite zip_with_app by done. by rewrite concat_app.
Qed.

(** X3: when the draw of a character falls in the deletion band (not
    below [sub_freq + ins_freq], below [sub_freq + ins_freq + del_freq]),
    the character leaves nothing in the output, and [random.choice] is not
    called. *)
Theorem deletion_emits_nothing
    (pre post : pystr) (char : char) (g g1 : G) (o1 : pystr) :
  fuzz_text sub_freq ins_freq del_freq preserve_punctuation pre g
    = (Ok o1, g1) →
  exempt preserve_punctuation char = false →
  ((random g1).1 <? sub_freq)%float = false →
  ((random g1).1 <? sub_freq + ins_freq)%float = false →
  ((random g1).1 <? sub_freq + ins_freq + del_freq)%float = true →
  ∃ o2 g3,
    fuzz_char sub_freq ins_freq del_freq preserve_punctuation char g1
      = (Ok Deleted, (random g1).2) ∧
    fuzz_text sub_freq ins_freq del_freq preserve_punctuation post
      (random g1).2 = (Ok o2, g3) ∧
    fuzz_text sub_freq ins_freq del_freq preserve_punctuation
      (pre ++ char :: post) g = (Ok (o1 ++ o2), g3).
Proof.
  intros Hpre Hex Hs Hi Hd.
  destruct (fuzz_char_decision sub_freq ins_freq del_freq
              preserve_punctuation char g1 Hex) as (c & _ & _ & Hb).
  unfold spec_decision in Hb. rewrite Hs, Hi, Hd in Hb.
  destruct (fuzz_text_total sub_freq ins_freq del_freq preserve_punctuation
              post (random g1).2) as (o2 & g3 & Hpost).
  exists o2, g3. repeat split; try done.
  exact (fuzz_text_around _ _ _ _ _ _ _ _ _ _ _ _ _ _ Hpre Hb Hpost).
Qed.

(** X4: when the draw of a character is below none of the three
    thresholds, the character stands unchanged in the output and the
    generator has made the one draw only. *)
Theorem pass_through_emits_original
    (pre post : pystr) (char : char) (g g1 : G) (o1 : pystr) :
  fuzz_text sub_freq ins_freq del_freq preserve_punctuation pre g
    = (Ok o1, g1) →
  exempt preserve_punctuation char = false →
  ((random g1).1 <? sub_freq)%float = false →
  ((random g1).1 <? sub_freq + ins_freq)%float = false →
  ((random g1).1 <? sub_freq + ins_freq + del_freq)%float = false →
  ∃ o2 g3,
    fuzz_char sub_freq ins_freq del_freq preserve_punctuation char g1
      = (Ok PassedThrough, (random g1).2) ∧
    fuzz_text sub_freq ins_freq del_freq preserve_punctuation post
      (random g1).2 = (Ok o2, g3) ∧
    fuzz_text sub_freq ins_freq del_freq preserve_punctuation
      (pre ++ char :: post) g = (Ok (o1 ++ [char] ++ o2), g3).
Proof.
  intros Hpre Hex Hs Hi Hd.
  destruct (fuzz_char_decision sub_freq ins_freq del_freq
              preserve_punctuation char g1 Hex) as (c & _ & _ & Hb).
  unfold spec_decision in Hb. rewrite Hs, Hi, Hd in Hb.
  destruct (fuzz_text_total sub_freq ins_freq del_freq preserve_punctuation
              post (random g1).2) as (o2 & g3 & Hpost).
  exists o2, g3. repeat split; try done.
  exact (fuzz_text_around _ _ _ _ _ _ _ _ _ _ _ _ _ _ Hpre Hb Hpost).
Qed.

Lemma fuzz_loop_flag (text acc : pystr) (g : G) :
  Forall (λ c, c ∉ PyString.punctuation) text →
  fuzz_loop sub_freq ins_freq del_freq true text acc g
  = fuzz_loop sub_freq ins_freq del_freq false text acc g.
Proof.
  intros Hall. revert acc g.
  induction Hall as [|char chars Hc _ IH]; intros acc g; [reflexivity|].
  cbn [fuzz_loop]. unfold char_in. rewrite (bool_decide_eq_false_2 _ Hc).
  cbn [andb]. destruct (random g) as [r g1].
  destruct (r <? sub_freq)%float;
    [by destruct (choice _ g1) as [[c|e] g2]|].
  destruct (r <? sub_freq + ins_freq)%float;
    [by destruct (choice _ g1) as [[c|e] g2]|].
  by destruct (r <? sub_freq + ins_freq + del_freq)%float.
Qed.

(** X5: on a text without any character of [string.punctuation] the flag
    [preserve_punctuation] changes nothing: same output, same generator
    afterwards. *)
Theorem preserve_flag_irrelevant_without_punctuation (text : pystr) (g : G) :
  Forall (λ c, c ∉ PyString.punctuation) text →
  fuzz_text sub_freq ins_freq del_freq true text g
  = fuzz_text sub_freq ins_freq del_freq false text g.
Proof. intros Hall. unfold fuzz_text. by apply fuzz_loop_flag. Qed.

End FuzzerComposition.

(** ** Frequencies that switch a branch off or on *)

Section FloatAddZero.
Local Open Scope float_scope.

(** Adding a zero does not change what is below a threshold. *)
Lemma float_ltb_add_zero (r x z : float) :
  (z =? 0) = true → (r <? x + z) = (r <? x).
Proof.
  intros Hz. rewrite !FloatAxioms.ltb_spec, FloatAxioms.add_spec.
  assert (Hsf : ∃ s, Prim2SF z = S754_zero s).
  { destruct (float_eqb_zero z Hz) as [-> | ->]; eexists; reflexivity. }
  destruct Hsf as [s ->]. unfold SF64add, SFadd, SFltb.
  destruct (Prim2SF x) as [sx|sx| |sx mx ex]; try reflexivity.
  destruct sx, s; try reflexivity;
    by destruct (Prim2SF r) as [[]|[]| |[] m e].
Qed.

(** A zero plus [1.0] is [1.0]. *)
Lemma float_zero_add_one (z d : float) :
  (z =? 0) = true → (d =? 1) = true → z + d = 1.
Proof.
  intros Hz Hd. rewrite (float_eqb_one d Hd).
  by destruct (float_eqb_zero z Hz) as [-> | ->].
Qed.

End FloatAddZero.

Section BranchesOfARun.
Context `{RandomSource G}.
Variables (sub_freq ins_freq del_freq : float) (preserve_punctuation : bool).

(** What holds of every iteration holds along a run. *)
Lemma run_Forall2 (P : char → branch → Prop) (text : pystr) (g g' : G)
    (bs : list branch) :
  (∀ char g b g',
     fuzz_char sub_freq ins_freq del_freq preserve_punctuation char g
     = (Ok b, g') → P char b) →
  run sub_freq ins_freq del_freq preserve_punctuation text g bs g' →
  Forall2 P text bs.
Proof. intros HP. induction 1; constructor; eauto. Qed.

(** The decision of an iteration, read back from its branch. *)
Lemma fuzz_char_spec_decision (char : char) (g g' : G) (b : branch) :
  fuzz_char sub_freq ins_freq del_freq preserve_punctuation char g
    = (Ok b, g') →
  if exempt preserve_punctuation char then b = Preserved
  else match spec_decision (random g).1 sub_freq ins_freq del_freq with
       | Substitute => ∃ c, b = Substituted c ∧ is_ascii_alnum c
       | Insert => ∃ c, b = Inserted c ∧ is_ascii_alnum c
       | Delete => b = Deleted
       | PassThrough => b = PassedThrough
       end.
Proof.
  destruct (exempt preserve_punctuation char) eqn:Hex.
  - rewrite (fuzz_char_exempt _ _ _ _ _ _ Hex). by intros [= <- <-].
  - destruct (fuzz_char_decision sub_freq ins_freq del_freq
                preserve_punctuation char g Hex) as (c & Hin & _ & ->).
    apply elem_of_alnum in Hin.
    destruct (spec_decision _ _ _ _); intros [= <- <-]; eauto.
Qed.

End BranchesOfARun.

Section SwitchedBranches.
Context `{RandomSource G}.
Variables (sub_freq ins_freq del_freq : float) (preserve_punctuation : bool).

Local Ltac run_of text g bs g' Hrun :=
  destruct (run_total sub_freq ins_freq del_freq preserve_punctuation text g)
    as (bs & g' & Hrun);
  exists (concat (zip_with emitted text bs)), g';
  split; [by apply fuzz_text_run|].

(** X6: with [sub_freq] and [ins_freq] zero nothing is brought in: the
    output is the input with some characters dropped. *)
Theorem no_substitution_no_insertion_sublist (text : pystr) (g : G) :
  (sub_freq =? 0)%float = true →
  (ins_freq =? 0)%float = true →
  ∃ out g',
    fuzz_text sub_freq ins_freq del_freq preserve_punctuation text g
      = (Ok out, g') ∧
    out `sublist_of` text.
Proof.
  intros Hs Hi. run_of text g bs g' Hrun.
  assert (HF : Forall2 (λ char b, emitted char b = [char] ∨ emitted char b = [])
                 text bs).
  { eapply run_Forall2; [|exact Hrun].
    intros char g0 b g0' Hb. apply fuzz_char_spec_decision in Hb.
    destruct (exempt preserve_punctuation char); [subst; by left|].
    unfold spec_decision in Hb. destruct (random_unit g0) as [Hge _].
    rewrite (float_ltb_zero _ _ Hge Hs) in Hb.
    rewrite (float_ltb_zero _ _ Hge (float_add_zero _ _ Hs Hi)) in Hb.
    destruct (_ <? _)%float; subst; auto. }
  clear Hrun. induction HF as [|char b chars bs Hb _ IH]; [done|].
  cbn [zip_with concat]. destruct Hb as [-> | ->].
  - by apply sublist_skip.
  - by apply sublist_cons.
Qed.

(** X7: frequencies (0, 0, 1) delete every character that the guard does
    not exempt: what is left is the punctuation when the flag is on, and
    nothing when it is off. *)
Theorem delete_all_keeps_exempt_only (text : pystr) (g : G) :
  (sub_freq =? 0)%float = true →
  (ins_freq =? 0)%float = true →
  (del_freq =? 1)%float = true →
  ∃ out g',
    fuzz_text sub_freq ins_freq del_freq preserve_punctuation text g
      = (Ok out, g') ∧
    out = List.filter (exempt preserve_punctuation) text ∧
    (preserve_punctuation = false → out = []).
Proof.
  intros Hs Hi Hd. run_of text g bs g' Hrun.
  assert (HF : Forall2 (λ char b, emitted char b
                 = if exempt preserve_punctuation char then [char] else [])
                 text bs).
  { eapply run_Forall2; [|exact Hrun].
    intros char g0 b g0' Hb. apply fuzz_char_spec_decision in Hb.
    destruct (exempt preserve_punctuation char); [by subst|].
    unfold spec_decision in Hb. destruct (random_unit g0) as [Hge Hlt].
    rewrite (float_ltb_zero _ _ Hge Hs) in Hb.
    rewrite (float_ltb_zero _ _ Hge (float_add_zero _ _ Hs Hi)) in Hb.
    rewrite (float_zero_add_one _ _ (float_add_zero _ _ Hs Hi) Hd), Hlt in Hb.
    by subst. }
  assert (Hout : concat (zip_with emitted text bs)
                 = List.filter (exempt preserve_punctuation) text).
  { clear Hrun. induction HF as [|char b chars bs Hb _ IH]; [done|].
    cbn [zip_with concat List.filter]. rewrite Hb, IH.
    by destruct (exempt preserve_punctuation char). }
  split; [exact Hout|]. intros ->. rewrite Hout.
  clear. by induction text.
Qed.

(** X8: with [sub_freq] equal to 1 every draw is below the first
    threshold: the output has the length of the input; position by
    position an exempt character is kept and any other is replaced by an
    ASCII letter or digit. *)
Theorem substitute_all_same_length (text : pystr) (g : G) :
  (sub_freq =? 1)%float = true →
  ∃ out g',
    fuzz_text sub_freq ins_freq del_freq preserve_punctuation text g
      = (Ok out, g') ∧
    length out = length text ∧
    Forall2 (λ char c, if exempt preserve_punctuation char
                       then c = char else is_ascii_alnum c) text out.
Proof.
  intros Hs. run_of text g bs g' Hrun.
  assert (HF : Forall2 (λ char b, ∃ c, emitted char b = [c] ∧
                 if exempt preserve_punctuation char
                 then c = char else is_ascii_alnum c) text bs).
  { eapply run_Forall2; [|exact Hrun].
    intros char g0 b g0' Hb. apply fuzz_char_spec_decision in Hb.
    destruct (exempt preserve_punctuation char); [subst; by eauto|].
    unfold spec_decision in Hb. destruct (random_unit g0) as [_ Hlt].
    rewrite (float_eqb_one _ Hs), Hlt in Hb.
    destruct Hb as (c & -> & Hc). by eauto. }
  clear Hrun. induction HF as [|char b chars bs (c & Hb & Hc) _ [IH1 IH2]].
  - split; [done | constructor].
  - cbn [zip_with concat]. rewrite Hb. split; [simpl; by rewrite IH1|].
    by constructor.
Qed.

(** X9: with [sub_freq] and [del_freq] zero nothing is lost: the input is
    the output with some characters (the inserted ones) dropped. *)
Theorem no_substitution_no_deletion_supersequence (text : pystr) (g : G) :
  (sub_freq =? 0)%float = true →
  (del_freq =? 0)%float = true →
  ∃ out g',
    fuzz_text sub_freq ins_freq del_freq preserve_punctuation text g
      = (Ok out, g') ∧
    text `sublist_of` out.
Proof.
  intros Hs Hd. run_of text g bs g' Hrun.
  assert (HF : Forall2 (λ char b, emitted char b = [char] ∨
                 ∃ c, emitted char b = [c; char]) text bs).
  { eapply run_Forall2; [|exact Hrun].
    intros char g0 b g0' Hb. apply fuzz_char_spec_decision in Hb.
    destruct (exempt preserve_punctuation char); [subst; by left|].
    unfold spec_decision in Hb. destruct (random_unit g0) as [Hge _].
    rewrite (float_ltb_zero _ _ Hge Hs) in Hb.
    rewrite (float_ltb_add_zero _ _ _ Hd) in Hb.
    destruct (_ <? _)%float; [|subst; by left].
    destruct Hb as (c & -> & _). right. by exists c. }
  clear Hrun. induction HF as [|char b chars bs Hb _ IH]; [done|].
  cbn [zip_with concat]. destruct Hb as [-> | [c ->]].
  - by apply sublist_skip.
  - by apply sublist_cons, sublist_skip.
Qed.

(** X10: with [ins_freq] and [del_freq] zero the output has the length of
    the input: a character is kept or replaced, never doubled or
    dropped. *)
Theorem no_insertion_no_deletion_same_length (text : pystr) (g : G) :
  (ins_freq =? 0)%float = true →
  (del_freq =? 0)%float = true →
  ∃ out g',
    fuzz_text sub_freq ins_freq del_freq preserve_punctuation text g
      = (Ok out, g') ∧
    length out = length text.
Proof.
  intros Hi Hd. run_of text g bs g' Hrun.
  assert (HF : Forall2 (λ char b, length (emitted char b) = 1) text bs).
  { eapply run_Forall2; [|exact Hrun].
    intros char g0 b g0' Hb. apply fuzz_char_spec_decision in Hb.
    destruct (exempt preserve_punctuation char); [by subst|].
    unfold spec_decision in Hb.
    rewrite (float_ltb_add_zero _ _ _ Hd) in Hb.
    rewrite (float_ltb_add_zero _ _ _ Hi) in Hb.
    destruct (_ <? _)%float; [|by subst].
    by destruct Hb as (c & -> & _). }
  clear Hrun. induction HF as [|char b chars bs Hb _ IH]; [done|].
  cbn [zip_with concat]. rewrite length_app, Hb. simpl. by rewrite IH.
Qed.

End SwitchedBranches.

Section LengthAccount.
Context `{RandomSource G}.
Variables (sub_freq ins_freq del_freq : float) (preserve_punctuation : bool).

(** X11: the length of the output is the length of the input, plus one
    for each character that had one inserted before it, minus one for each
    deleted character. *)
Theorem fuzz_text_length_account (text : pystr) (g : G) :
  ∃ out g' bs,
    fuzz_text sub_freq ins_freq del_freq preserve_punctuation text g
      = (Ok out, g') ∧
    run sub_freq ins_freq del_freq preserve_punctuation text g bs g' ∧
    length out + length (List.filter is_deleted bs)
    = length text + length (List.filter is_inserted bs).
Proof.
  destruct (run_total sub_freq ins_freq del_freq preserve_punctuation text g)
    as (bs & g' & Hrun).
  exists (concat (zip_with emitted text bs)), g', bs.
  split; [by apply fuzz_text_run|]. split; [exact Hrun|].
  induction Hrun as [g | char chars g b g1 bs g2 _ _ IH]; [done|].
  cbn [zip_with concat List.filter]. rewrite length_app.
  destruct b; simpl in *; lia.
Qed.

End LengthAccount.

(** * Further properties of validation and of [main] *)


(** What an acceptance tells about the disk. *)
Lemma validate_args_ok_inv (args : Namespace) (fs : gmap string node) :
  validate_args args fs = Ok () →
  (∃ r w content, fs !! input_file args = Some (RegularFile r w content)) ∧
  fs !! output_file args ≠ Some Directory.
Proof.
  unfold validate_args, is_file, is_dir.
  repeat (case_match; try discriminate); simplify_eq/=; intros _;
    (split; [by eauto | done]).
Qed.



(** X14: a command line without frequency options never fails a
    frequency check: with the defaults of [setup_argparse] validation
    depends on the two paths only. *)
Theorem default_args_pass_frequency_checks
    (input output : string) (fs : gmap string node) :
  frequencies_valid (default_args input output) ∧
  (∀ msg, validate_args (default_args input output) fs
          ≠ Raise (ValueError msg)) ∧
  (validate_args (default_args input output) fs = Ok () ↔
   is_file input fs = true ∧ is_dir output fs = false).
Proof.
  split; [by repeat split|]. unfold validate_args. simpl.
  split.
  - intros msg. by repeat case_match.
  - destruct (is_file input fs), (is_dir output fs); simpl;
      split; (done || by intros []).
Qed.

Section MainFacts.
Context `{RandomSource G}.

Lemma handle_exits_1 (e : exn) (w : World G) :
  (handle e w).1 = 1 ∧ fs (handle e w).2 = fs w ∧
  opens (handle e w).2 = opens w ∧
  ∃ msg, log (handle e w).2 = log w ++ [(ERROR, msg)].
Proof. destruct e; simpl; eauto. Qed.

(** The run of [main] once [validate_args] has accepted and the input
    has been read. *)
Lemma main_after_validation (args : Namespace) (w : World G) :
  validate_args args (fs w) = Ok () →
  main args w =
    let w1 := logging INFO ("Fuzzing file: " +:+ input_file args) w in
    match read_file (input_file args) w1 with
    | (Raise e, w2) => handle e w2
    | (Ok text, w2) =>
        match fuzz_text (substitution_freq args) (insertion_freq args)
                (deletion_freq args) (preserve_punctuation args)
                text (rng w2) with
        | (Raise e, g) =>
            handle e {| fs := fs w2; rng := g; log := log w2;
                        opens := opens w2 |}
        | (Ok fuzzed_text, g) =>
            match write_file (output_file args) fuzzed_text
                    {| fs := fs w2; rng := g; log := log w2;
                       opens := opens w2 |} with
            | (Raise e, w3) => handle e w3
            | (Ok _, w3) =>
                (0, logging INFO
                      ("Fuzzed text saved to: " +:+ output_file args) w3)
            end
        end
    end.
Proof. intros Hv. unfold main. by rewrite Hv. Qed.


(** The four ways a run of [main] can go, with the world each leaves:
    validation refuses; the input cannot be read; the output cannot be
    written; or the fuzzed text is written. *)
Lemma main_outcome (args : Namespace) (w : World G) :
  let started := log w ++ [(INFO, "Fuzzing file: " +:+ input_file args)] in
  (∃ e, validate_args args (fs w) = Raise e ∧ main args w = handle e w) ∨
  (∃ wr content,
     validate_args args (fs w) = Ok () ∧
     fs w !! input_file args = Some (RegularFile false wr content) ∧
     main args w =
       handle (OSError "Permission denied")
         {| fs := fs w; rng := rng w; log := started;
            opens := opens w ++ [(input_file args, ModeR)] |}) ∨
  (∃ wr content fuzzed g',
     validate_args args (fs w) = Ok () ∧
     fs w !! input_file args = Some (RegularFile true wr content) ∧
     fuzz_text (substitution_freq args) (insertion_freq args)
       (deletion_freq args) (preserve_punctuation args) content (rng w)
     = (Ok fuzzed, g') ∧
     ((∃ r c,
         fs w !! output_file args = Some (RegularFile r false c) ∧
         main args w =
           handle (OSError "Permission denied")
             {| fs := fs w; rng := g'; log := started;
                opens := opens w ++ [(input_file args, ModeR);
                                     (output_file args, ModeW)] |}) ∨
      (∃ r,
         (fs w !! output_file args = None ∧ r = true ∨
          ∃ c, fs w !! output_file args = Some (RegularFile r true c)) ∧
         main args w =
           (0, {| fs := <[output_file args := RegularFile r true fuzzed]>
                          (fs w);
                  rng := g';
                  log := log w
                         ++ [(INFO, "Fuzzing file: " +:+ input_file args);
                             (INFO, "Fuzzed text saved to: "
                                    +:+ output_file args)];
                  opens := opens w ++ [(input_file args, ModeR);
                                       (output_file args, ModeW)] |})))).
Proof.
  cbn zeta. destruct (validate_args args (fs w)) as [[]|e] eqn:Hv.
  2:{ left. exists e. split; [done|]. unfold main. by rewrite Hv. }
  right. rewrite (main_after_validation _ _ Hv). cbn zeta.
  apply validate_args_ok_inv in Hv as ((r & wr & content & Hin) & Hout).
  unfold read_file. cbn [fs logging]. rewrite Hin. destruct r.
  2:{ left. exists wr, content. by repeat split. }
  right. exists wr, content. cbn [rng logging].
  destruct (fuzz_text_total (substitution_freq args) (insertion_freq args)
              (deletion_freq args) (preserve_punctuation args) content (rng w))
    as (fuzzed & g' & Hf).
  exists fuzzed, g'. rewrite Hf. split; [done|]. split; [done|].
  split; [done|]. unfold write_file. cbn [fs opens log rng].
  rewrite <- !app_assoc. cbn [app].
  destruct (fs w !! output_file args) as [[|r' [] content']|] eqn:Hlook.
  - done.
  - right. exists r'. split; [right; by eauto|].
    unfold logging. cbn [fs rng log opens]. by rewrite <- app_assoc.
  - left. exists r', content'. by split.
  - right. exists true. split; [by left|].
    unfold logging. cbn [fs rng log opens]. by rewrite <- app_assoc.
Qed.




(** X19: [main] calls [open] at most twice, first on the input for
    reading and then on the output for writing; when validation refuses
    it does not call it, and it opens the output only after the input has
    been read and fuzzed. *)
Theorem main_opens_in_order (args : Namespace) (w : World G) :
  ∃ calls,
    opens (main args w).2 = opens w ++ calls ∧
    (calls = [] ∨ calls = [(input_file args, ModeR)] ∨
     calls = [(input_file args, ModeR); (output_file args, ModeW)]) ∧
    (calls = [] ↔ ∃ e, validate_args args (fs w) = Raise e).
Proof.
  destruct (main_outcome args w)
    as [(e & Hv & ->) | [(wr & c & Hv & _ & ->) |
        (wr & c & fuzzed & g' & Hv & _ & _ &
         [(r & c' & _ & ->) | (r & _ & ->)])]].
  - destruct (handle_exits_1 e w) as (_ & _ & -> & _).
    exists []. rewrite app_nil_r. split; [done|]. split; [by left|].
    split; [by eauto | done].
  - match goal with |- context [handle ?e ?w0] =>
      destruct (handle_exits_1 e w0) as (_ & _ & -> & _) end.
    eexists. split; [done|]. split; [right; by left|].
    rewrite Hv. split; [done | by intros [? ?]].
  - match goal with |- context [handle ?e ?w0] =>
      destruct (handle_exits_1 e w0) as (_ & _ & -> & _) end.
    eexists. split; [done|]. split; [right; by right|].
    rewrite Hv. split; [done | by intros [? ?]].
  - eexists. split; [done|]. split; [right; by right|].
    rewrite Hv. split; [done | by intros [? ?]].
Qed.



End MainFacts.

(** ** The further properties on scripted draws and on a sample disk *)

Section ScriptedFurther.

(** X2 on [a] followed by [.b]. *)
Lemma fuzz_text_app_witness :
  fuzz_text 0.5 0.3 0.1 true (lit "a" ++ lit ".b")
    (Script [draw 0.6; draw 0.95] [10])
  = (Ok (lit "ka" ++ lit ".b"), Script [] []).
Proof.
  exact (@fuzz_text_app script script_source 0.5 0.3 0.1 true
           (lit "a") (lit ".b") (Script [draw 0.6; draw 0.95] [10])
           (Script [draw 0.95] []) (Script [] []) (lit "ka") (lit ".b")
           eq_refl eq_refl).
Defined.

(** X3 at the [a] of [xay], with the draw 0.85 in the deletion band. *)
Lemma deletion_emits_nothing_witness :
  fuzz_text 0.5 0.3 0.1 true (lit "xay")
    (Script [draw 0.95; draw 0.85; draw 0.95] [10])
  = (Ok (lit "xy"), Script [] [10]).
Proof.
  destruct (@deletion_emits_nothing script script_source
              0.5 0.3 0.1 true (lit "x") (lit "y") 97%N
              (Script [draw 0.95; draw 0.85; draw 0.95] [10])
              (Script [draw 0.85; draw 0.95] [10]) (lit "x")
              eq_refl eq_refl eq_refl eq_refl eq_refl)
    as (o2 & g3 & _ & Hpost & Hall).
  vm_compute in Hpost. injection Hpost as <- <-. exact Hall.
Defined.

(** X4 at the [a] of [xay], with the draw 0.95 above every threshold. *)
Lemma pass_through_emits_original_witness :
  fuzz_text 0.5 0.3 0.1 true (lit "xay")
    (Script [draw 0.95; draw 0.95; draw 0.95] [10])
  = (Ok (lit "xay"), Script [] [10]).
Proof.
  destruct (@pass_through_emits_original script script_source
              0.5 0.3 0.1 true (lit "x") (lit "y") 97%N
              (Script [draw 0.95; draw 0.95; draw 0.95] [10])
              (Script [draw 0.95; draw 0.95] [10]) (lit "x")
              eq_refl eq_refl eq_refl eq_refl eq_refl)
    as (o2 & g3 & _ & Hpost & Hall).
  vm_compute in Hpost. injection Hpost as <- <-. exact Hall.
Defined.

(** X5 on [ab]. *)
Lemma preserve_flag_irrelevant_without_punctuation_witness :
  fuzz_text 0.5 0.3 0.1 true (lit "ab") (Script [draw 0.6; draw 0.2] [10; 1])
  = fuzz_text 0.5 0.3 0.1 false (lit "ab")
      (Script [draw 0.6; draw 0.2] [10; 1]).
Proof.
  apply (@preserve_flag_irrelevant_without_punctuation script script_source).
  apply (bool_decide_eq_true_1
           (Forall (λ c : char, c ∉ PyString.punctuation) (lit "ab"))).
  vm_compute. reflexivity.
Defined.

(** X6 at frequencies (0, 0, 0.5). *)
Lemma no_substitution_no_insertion_sublist_witness :
  ∃ out g',
    fuzz_text 0 0 0.5 true (lit "a.b") (Script [draw 0.3; draw 0.95] [])
      = (Ok out, g') ∧
    out `sublist_of` lit "a.b".
Proof.
  exact (@no_substitution_no_insertion_sublist script script_source
           0 0 0.5 true (lit "a.b") (Script [draw 0.3; draw 0.95] [])
           eq_refl eq_refl).
Defined.

(** X7 at frequencies (0, -0, 1). *)
Lemma delete_all_keeps_exempt_only_witness :
  ∃ out g',
    fuzz_text 0 (-0) 1 true (lit "a.b,c")
      (Script [draw 0.6; draw 0.95; draw 0.3] [])
      = (Ok out, g') ∧
    out = List.filter (exempt true) (lit "a.b,c") ∧
    (true = false → out = []).
Proof.
  exact (@delete_all_keeps_exempt_only script script_source
           0 (-0) 1 true (lit "a.b,c")
           (Script [draw 0.6; draw 0.95; draw 0.3] [])
           eq_refl eq_refl eq_refl).
Defined.

(** X8 at frequencies (1, 0, 0.5), which [validate_args] would refuse. *)
Lemma substitute_all_same_length_witness :
  ∃ out g',
    fuzz_text 1 0 0.5 true (lit "a.b") (Script [draw 0.6; draw 0.95] [10; 40])
      = (Ok out, g') ∧
    length out = length (lit "a.b") ∧
    Forall2 (λ char c, if exempt true char then c = char
                       else is_ascii_alnum c) (lit "a.b") out.
Proof.
  exact (@substitute_all_same_length script script_source
           1 0 0.5 true (lit "a.b") (Script [draw 0.6; draw 0.95] [10; 40])
           eq_refl).
Defined.

(** X9 at frequencies (0, 0.5, 0). *)
Lemma no_substitution_no_deletion_supersequence_witness :
  ∃ out g',
    fuzz_text 0 0.5 0 true (lit "a.b") (Script [draw 0.3; draw 0.95] [10])
      = (Ok out, g') ∧
    lit "a.b" `sublist_of` out.
Proof.
  exact (@no_substitution_no_deletion_supersequence script script_source
           0 0.5 0 true (lit "a.b") (Script [draw 0.3; draw 0.95] [10])
           eq_refl eq_refl).
Defined.

(** X10 at frequencies (0.5, 0, 0). *)
Lemma no_insertion_no_deletion_same_length_witness :
  ∃ out g',
    fuzz_text 0.5 0 0 true (lit "a.b") (Script [draw 0.3; draw 0.95] [10])
      = (Ok out, g') ∧
    length out = length (lit "a.b").
Proof.
  exact (@no_insertion_no_deletion_same_length script script_source
           0.5 0 0 true (lit "a.b") (Script [draw 0.3; draw 0.95] [10])
           eq_refl eq_refl).
Defined.







End ScriptedFurther.
